(* Shallow embedding of the SpecSpec Rust prelude
   (src/src/codegen/rust/prelude.rs): issues, primitive and structural
   validators, the file-system context over a directory or a zip archive,
   the bundle validators and the entry points. *)

From Stdlib Require Import QArith Ascii.
From stdpp Require Import base gmap list strings pretty.

#[local] Set Warnings "-register-all".
Open Scope string_scope.
Open Scope list_scope.

(* ------------------------------------------------------------------ *)
(** * serde_json::Value *)

(** serde_json's [Number] keeps its representation: a non-negative
    integer ([PosInt], u64), a negative integer ([NegInt], i64) or a float
    ([Float], f64).  A finite f64 is a rational number, so a float is held
    as the exact rational [Q] it denotes. *)
Inductive Number :=
  | PosInt (n : N)
  | NegInt (z : Z)
  | Float (q : Q).

Inductive Value :=
  | Null
  | Bool (b : bool)
  | Num (n : Number)
  | Str (s : string)
  | Array (a : list Value)
  | Object (m : list (string * Value)).

Definition i64_max : Z := 9223372036854775807.

(** [Value::as_str] *)
Definition as_str (v : Value) : option string :=
  match v with Str s => Some s | _ => None end.

(** [Value::as_f64]: every serde_json number converts to f64 (the
    integer-to-float rounding above 2^53 is not modelled). *)
Definition as_f64 (v : Value) : option Q :=
  match v with
  | Num (PosInt n) => Some (inject_Z (Z.of_N n))
  | Num (NegInt z) => Some (inject_Z z)
  | Num (Float q) => Some q
  | _ => None
  end.

(** [Value::as_i64] *)
Definition as_i64 (v : Value) : option Z :=
  match v with
  | Num (PosInt n) => if (Z.of_N n <=? i64_max)%Z then Some (Z.of_N n) else None
  | Num (NegInt z) => Some z
  | _ => None
  end.

(** [Value::as_array] *)
Definition as_array (v : Value) : option (list Value) :=
  match v with Array a => Some a | _ => None end.

(** [Value::as_object] *)
Definition as_object (v : Value) : option (list (string * Value)) :=
  match v with Object m => Some m | _ => None end.

(** [Value::is_object] *)
Definition is_object (v : Value) : bool :=
  match v with Object _ => true | _ => false end.

(** [Value::is_boolean] *)
Definition is_boolean (v : Value) : bool :=
  match v with Bool _ => true | _ => false end.

(** [Map::get] on the object's entries. *)
Fixpoint map_get (key : string) (m : list (string * Value)) : option Value :=
  match m with
  | [] => None
  | (k, v) :: rest => if String.eqb k key then Some v else map_get key rest
  end.

(** [format!("{}", n)] of an f64, rendered as numerator/denominator. *)
Definition fmt_f64 (q : Q) : string :=
  if (Zpos (Qden q) =? 1)%Z then pretty (Qnum q)
  else pretty (Qnum q) +:+ "/" +:+ pretty (Zpos (Qden q)).

Definition fmt_number (n : Number) : string :=
  match n with
  | PosInt n => pretty n
  | NegInt z => pretty z
  | Float q => fmt_f64 q
  end.

(** [format!("{:?}", value)], the Debug rendering of a value. *)
Fixpoint debug_value (v : Value) : string :=
  match v with
  | Null => "Null"
  | Bool b => "Bool(" +:+ (if b then "true" else "false") +:+ ")"
  | Num n => "Number(" +:+ fmt_number n +:+ ")"
  | Str s => "String(" +:+ s +:+ ")"
  | Array a =>
      "Array [" +:+ String.concat ", " (map debug_value a) +:+ "]"
  | Object m =>
      "Object {" +:+
        String.concat ", " (map (fun kv => fst kv +:+ ": " +:+ debug_value (snd kv)) m)
        +:+ "}"
  end.

(* ------------------------------------------------------------------ *)
(** * Issues *)

Record Issue := mkIssue { issue_path : string; issue_code : string; issue_message : string }.

Definition Issues := list Issue.

(** [Validator = Box<dyn Fn(&Value, &[String], &mut Issues)>]: the
    mutable issue list is threaded through explicitly. *)
Definition Validator := Value -> list string -> Issues -> Issues.

Record ValidationResult := mkResult { ok : bool; issues : Issues }.

(** [Vec::is_empty] *)
Definition is_empty {A} (l : list A) : bool :=
  match l with [] => true | _ => false end.

(** [add_issue] *)
Definition add_issue (issues : Issues) (path : list string) (code message : string) : Issues :=
  issues ++ [mkIssue (if is_empty path then "(root)" else String.concat "." path) code message].

(* ------------------------------------------------------------------ *)
(** * Primitive validators *)

(** [Regex::new(p)]: [Some is_match] for a pattern that compiles, [None]
    for a malformed one.  The regex engine is a parameter of the
    validators that use it. *)
Definition RegexNew := string -> option (string -> bool).

(** [f64::fract() != 0.0] for a finite value. *)
Definition fract_nonzero (q : Q) : bool :=
  negb (Z.modulo (Qnum q) (Zpos (Qden q)) =? 0)%Z.

(** [a < b] on f64. *)
Definition f64_lt (a b : Q) : bool := negb (Qle_bool b a).

Section Primitives.

Variable regex_new : RegexNew.

(** [validate_str] *)
Definition validate_str (value : Value) (path : list string) (issues : Issues)
    (min_length max_length : option nat) (pattern : option string) : Issues :=
  match as_str value with
  | Some s =>
      let issues :=
        match min_length with
        | Some min =>
            if Nat.ltb (String.length s) min then
              add_issue issues path "str.too_short"
                ("String length " +:+ pretty (String.length s) +:+
                 " is less than minimum " +:+ pretty min)
            else issues
        | None => issues
        end in
      let issues :=
        match max_length with
        | Some max =>
            if Nat.ltb max (String.length s) then
              add_issue issues path "str.too_long"
                ("String length " +:+ pretty (String.length s) +:+
                 " exceeds maximum " +:+ pretty max)
            else issues
        | None => issues
        end in
      match pattern with
      | Some p =>
          match regex_new p with
          | Some is_match =>
              if negb (is_match s) then
                add_issue issues path "str.pattern_mismatch"
                  ("String does not match pattern " +:+ p)
              else issues
          | None => issues
          end
      | None => issues
      end
  | None =>
      add_issue issues path "type.mismatch" ("Expected string, got " +:+ debug_value value)
  end.

(** [validate_pattern] *)
Definition validate_pattern (value : Value) (path : list string) (issues : Issues)
    (pattern : string) : Issues :=
  match as_str value with
  | Some s =>
      match regex_new pattern with
      | Some is_match =>
          if negb (is_match s) then
            add_issue issues path "pattern.mismatch"
              ("Value does not match pattern " +:+ pattern)
          else issues
      | None => issues
      end
  | None =>
      add_issue issues path "type.mismatch"
        ("Expected string for pattern match, got " +:+ debug_value value)
  end.

End Primitives.

(** The three range checks of [validate_num] on the converted number. *)
Definition num_checks (path : list string) (issues : Issues)
    (min max : option Q) (integer : bool) (num : Q) : Issues :=
  let issues :=
    if integer && fract_nonzero num then
      add_issue issues path "num.not_integer" ("Expected integer, got " +:+ fmt_f64 num)
    else issues in
  let issues :=
    match min with
    | Some m =>
        if f64_lt num m then
          add_issue issues path "num.too_small"
            ("Number " +:+ fmt_f64 num +:+ " is less than minimum " +:+ fmt_f64 m)
        else issues
    | None => issues
    end in
  match max with
  | Some m =>
      if f64_lt m num then
        add_issue issues path "num.too_large"
          ("Number " +:+ fmt_f64 num +:+ " exceeds maximum " +:+ fmt_f64 m)
      else issues
  | None => issues
  end.

(** [validate_num] *)
Definition validate_num (value : Value) (path : list string) (issues : Issues)
    (min max : option Q) (integer : bool) : Issues :=
  match as_f64 value with
  | Some n => num_checks path issues min max integer n
  | None =>
      match as_i64 value with
      | Some n => num_checks path issues min max integer (inject_Z n)
      | None =>
          add_issue issues path "type.mismatch" ("Expected number, got " +:+ debug_value value)
      end
  end.

(** [validate_bool] *)
Definition validate_bool (value : Value) (path : list string) (issues : Issues) : Issues :=
  if negb (is_boolean value) then
    add_issue issues path "type.mismatch" ("Expected boolean, got " +:+ debug_value value)
  else issues.

(* ------------------------------------------------------------------ *)
(** * Structural validators *)

(** [validate_object]: the returned flag and the issue list. *)
Definition validate_object (value : Value) (path : list string) (issues : Issues) : bool * Issues :=
  if is_object value then (true, issues)
  else (false, add_issue issues path "type.mismatch" ("Expected object, got " +:+ debug_value value)).

(** [validate_field] *)
Definition validate_field (obj : Value) (path : list string) (issues : Issues)
    (key : string) (validator : option Validator) (optional : bool) : Issues :=
  match as_object obj with
  | Some map =>
      match map_get key map with
      | Some v =>
          match validator with
          | Some f => f v (path ++ [key]) issues
          | None => issues
          end
      | None =>
          if negb optional then
            add_issue issues path "field.missing" ("Missing required field: " +:+ key)
          else issues
      end
  | None => issues
  end.

(** [format!("[{}]", i)] *)
Definition index_segment (i : nat) : string := "[" +:+ pretty i +:+ "]".

(** [arr.iter().enumerate()] *)
Definition enumerate {A} (l : list A) : list (nat * A) := combine (seq 0 (length l)) l.

(** [validate_list] *)
Definition validate_list (value : Value) (path : list string) (issues : Issues)
    (item_validator : option Validator) (min_items max_items : option nat) : Issues :=
  match as_array value with
  | Some arr =>
      let issues :=
        match min_items with
        | Some min =>
            if Nat.ltb (length arr) min then
              add_issue issues path "list.too_short"
                ("Array length " +:+ pretty (length arr) +:+
                 " is less than minimum " +:+ pretty min)
            else issues
        | None => issues
        end in
      let issues :=
        match max_items with
        | Some max =>
            if Nat.ltb max (length arr) then
              add_issue issues path "list.too_long"
                ("Array length " +:+ pretty (length arr) +:+
                 " exceeds maximum " +:+ pretty max)
            else issues
        | None => issues
        end in
      match item_validator with
      | Some iv =>
          fold_left (fun issues (ix : nat * Value) =>
                       let '(i, item) := ix in
                       iv item (path ++ [index_segment i]) issues)
                    (enumerate arr) issues
      | None => issues
      end
  | None =>
      add_issue issues path "type.mismatch" ("Expected array, got " +:+ debug_value value)
  end.

(** [validate_oneof]: each candidate runs on a fresh [test_issues]; the
    loop returns on the first candidate that leaves it empty. *)
Fixpoint validate_oneof (value : Value) (path : list string) (issues : Issues)
    (validators : list Validator) : Issues :=
  match validators with
  | [] => add_issue issues path "oneof.no_match" "Value does not match any of the options"
  | validator :: rest =>
      let test_issues := validator value path [] in
      if is_empty test_issues then issues
      else validate_oneof value path issues rest
  end.

(* ------------------------------------------------------------------ *)
(** * Entry points *)

(** [validate] *)
Definition validate (value : Value) (validator : Validator) : ValidationResult :=
  let issues := validator value [] [] in
  mkResult (is_empty issues) issues.

(* ------------------------------------------------------------------ *)
(** * File system context *)

(** Rust's [Result]. *)
Inductive result (T E : Type) := Ok (t : T) | Err (e : E).
Arguments Ok {T E} t.
Arguments Err {T E} e.

(** One entry of a zip archive, as [archive.by_index(i)] yields it:
    its name, whether it is a directory entry, and the outcome of
    [read_to_end] on it. *)
Record ZipEntry := mkZipEntry {
  ze_name : string;
  ze_is_dir : bool;
  ze_data : result (list Byte.byte) string
}.

(** The file system the validators query: [Path::exists], [is_dir],
    [is_file], [fs::File::open] (its error message, if it fails),
    [ZipArchive::new] (the list of [by_index] outcomes, or its error
    message) and [fs::read_to_string]. *)
Record World := mkWorld {
  w_exists : string -> bool;
  w_is_dir : string -> bool;
  w_is_file : string -> bool;
  w_open : string -> option string;
  w_archive : string -> result (list (result ZipEntry string)) string;
  w_read_to_string : string -> result string string
}.

Record FSContext := mkFSContext {
  base_path : string;
  is_zip : bool;
  zip_entries : gmap string (list Byte.byte)
}.

(** [str::ends_with] *)
Definition ends_with (s suffix : string) : bool :=
  let n := String.length s in
  let k := String.length suffix in
  Nat.leb k n && String.eqb (String.substring (n - k) k s) suffix.

(** [str::starts_with] *)
Definition starts_with (s prefix : string) : bool := String.prefix prefix s.

(** [Path::join]: an absolute [rel] replaces the base. *)
Definition path_join (base rel : string) : string :=
  if starts_with rel "/" then rel
  else if ends_with base "/" then base +:+ rel
  else base +:+ "/" +:+ rel.

(** [HashMap::contains_key] *)
Definition contains_key (m : gmap string (list Byte.byte)) (k : string) : bool :=
  match m !! k with Some _ => true | None => false end.

(** [HashMap::keys] *)
Definition keys (m : gmap string (list Byte.byte)) : list string := map fst (map_to_list m).

(** The entry loop of [FSContext::new]: directory entries are skipped,
    file entries are read into the map; the first error aborts ([?]). *)
Fixpoint load_entries (es : list (result ZipEntry string))
    (entries : gmap string (list Byte.byte)) : result (gmap string (list Byte.byte)) string :=
  match es with
  | [] => Ok entries
  | Err e :: _ => Err ("Cannot read zip entry: " +:+ e)
  | Ok entry :: rest =>
      if negb (ze_is_dir entry) then
        match ze_data entry with
        | Ok data => load_entries rest (<[ze_name entry := data]> entries)
        | Err e => Err ("Cannot read zip content: " +:+ e)
        end
      else load_entries rest entries
  end.

(** [FSContext::new] *)
Definition FSContext_new (w : World) (path : string) : result FSContext string :=
  if w_is_dir w path then
    Ok (mkFSContext path false ∅)
  else if w_is_file w path && (ends_with path ".zip" || ends_with path ".asks") then
    match w_open w path with
    | Some e => Err ("Cannot open zip: " +:+ e)
    | None =>
        match w_archive w path with
        | Err e => Err ("Invalid zip: " +:+ e)
        | Ok es =>
            match load_entries es ∅ with
            | Ok entries => Ok (mkFSContext path true entries)
            | Err e => Err e
            end
        end
    end
  else Err ("Not a valid bundle: " +:+ path).

Section Context.

Variable w : World.

(** [FSContext::exists] *)
Definition FSContext_exists (ctx : FSContext) (rel_path : string) : bool :=
  if is_zip ctx then
    contains_key (zip_entries ctx) rel_path
    || existsb (fun k => starts_with k (rel_path +:+ "/")) (keys (zip_entries ctx))
  else w_exists w (path_join (base_path ctx) rel_path).

(** [FSContext::is_file] *)
Definition FSContext_is_file (ctx : FSContext) (rel_path : string) : bool :=
  if is_zip ctx then contains_key (zip_entries ctx) rel_path
  else w_is_file w (path_join (base_path ctx) rel_path).

(** [FSContext::is_dir] *)
Definition FSContext_is_dir (ctx : FSContext) (rel_path : string) : bool :=
  if is_zip ctx then
    existsb (fun k => starts_with k (rel_path +:+ "/")) (keys (zip_entries ctx))
  else w_is_dir w (path_join (base_path ctx) rel_path).

End Context.

(** Splitting a string at every occurrence of a character. *)
Fixpoint split_on (c : Ascii.ascii) (s : string) : list string :=
  match s with
  | EmptyString => [""]
  | String a rest =>
      if Ascii.eqb a c then "" :: split_on c rest
      else match split_on c rest with
           | [] => [String a ""]
           | x :: xs => String a x :: xs
           end
  end.

(** [Path::file_name]: the last normal component. *)
Definition file_name (path : string) : option string :=
  match last (filter (fun c => negb (String.eqb c "" || String.eqb c ".")) (split_on "/"%char path)) with
  | Some c => if String.eqb c ".." then None else Some c
  | None => None
  end.

(** [Path::file_stem]: the file name before its last ['.'], unless that
    dot is the name's first character. *)
Definition file_stem (path : string) : option string :=
  match file_name path with
  | Some name =>
      match rev (split_on "."%char name) with
      | [] | [_] => Some name
      | _ :: before_rev =>
          let before := String.concat "." (rev before_rev) in
          if String.eqb before "" then Some name else Some before
      end
  | None => None
  end.

(** [FSContext::basename] *)
Definition basename (ctx : FSContext) : string :=
  match file_stem (base_path ctx) with Some s => s | None => "" end.

(** [FSValidator = Box<dyn Fn(&FSContext, &[String], &mut Issues)>] *)
Definition FSValidator := FSContext -> list string -> Issues -> Issues.

(* ------------------------------------------------------------------ *)
(** * File system validators *)

Section Bundle.

Variable w : World.
Variable regex_new : RegexNew.

(** [validate_bundle] *)
Definition validate_bundle (bundle_path : string) (path_list : list string) (issues : Issues)
    (accept_dir accept_zip : bool) (zip_ext : option string) (name_pattern : option string)
    (content_validator : option FSValidator) : option FSContext * Issues :=
  if negb (w_exists w bundle_path) then
    (None, add_issue issues path_list "bundle.not_found" ("Path not found: " +:+ bundle_path))
  else
  let is_dir := w_is_dir w bundle_path in
  let is_zip_ := negb is_dir && (ends_with bundle_path ".zip"
      || match zip_ext with Some e => ends_with bundle_path ("." +:+ e) | None => false end) in
  if is_dir && negb accept_dir then
    (None, add_issue issues path_list "bundle.type_mismatch" "Directory not accepted")
  else if is_zip_ && negb accept_zip then
    (None, add_issue issues path_list "bundle.type_mismatch" "Zip file not accepted")
  else if negb is_dir && negb is_zip_ then
    (None, add_issue issues path_list "bundle.invalid" ("Not a valid bundle: " +:+ bundle_path))
  else
  match FSContext_new w bundle_path with
  | Ok ctx =>
      let issues :=
        match name_pattern with
        | Some pattern =>
            let name := basename ctx in
            match regex_new pattern with
            | Some is_match =>
                if negb (is_match name) then
                  add_issue issues path_list "bundle.name_mismatch"
                    ("Name '" +:+ name +:+ "' does not match pattern")
                else issues
            | None => issues
            end
        | None => issues
        end in
      let issues :=
        match content_validator with
        | Some cv => cv ctx path_list issues
        | None => issues
        end in
      (Some ctx, issues)
  | Err e => (None, add_issue issues path_list "bundle.open_error" e)
  end.

End Bundle.

(** [validate_path]: the produced context is dropped. *)
Definition validate_path (bundle_path : string)
    (validator : string -> list string -> Issues -> option FSContext * Issues) : ValidationResult :=
  let '(_, issues) := validator bundle_path [] [] in
  mkResult (is_empty issues) issues.

(* ------------------------------------------------------------------ *)
(** * Literal validators *)

(** The double-quote character, used by the Debug rendering of a [&str]. *)
Definition dq : string := String (Ascii.ascii_of_nat 34) EmptyString.

(** [format!("{:?}", s)] of a [&str]. *)
Definition debug_str (s : string) : string := dq +:+ s +:+ dq.

(** [validate_literal_str] *)
Definition validate_literal_str (value : Value) (path : list string) (issues : Issues)
    (expected : string) : Issues :=
  match as_str value with
  | Some s => if String.eqb s expected then issues
              else add_issue issues path "literal.mismatch"
                     ("Expected " +:+ debug_str expected +:+ ", got " +:+ debug_value value)
  | None => add_issue issues path "literal.mismatch"
              ("Expected " +:+ debug_str expected +:+ ", got " +:+ debug_value value)
  end.

(** [validate_literal_i64] *)
Definition validate_literal_i64 (value : Value) (path : list string) (issues : Issues)
    (expected : Z) : Issues :=
  match as_i64 value with
  | Some n => if (n =? expected)%Z then issues
              else add_issue issues path "literal.mismatch"
                     ("Expected " +:+ pretty expected +:+ ", got " +:+ debug_value value)
  | None => add_issue issues path "literal.mismatch"
              ("Expected " +:+ pretty expected +:+ ", got " +:+ debug_value value)
  end.

(* ------------------------------------------------------------------ *)
(** * Reading files *)

Definition in_range (lo hi b : nat) : bool := Nat.leb lo b && Nat.leb b hi.

(** A UTF-8 continuation byte, [0x80..=0xBF]. *)
Definition cont (b : nat) : bool := in_range 128 191 b.

(** The validity check of [String::from_utf8] (Unicode's well-formed
    UTF-8 byte sequences: no overlong forms, no surrogates, nothing
    above U+10FFFF). *)
Fixpoint utf8_valid (l : list nat) : bool :=
  match l with
  | [] => true
  | b :: rest =>
      if Nat.ltb b 128 then utf8_valid rest
      else if in_range 194 223 b then
        match rest with c1 :: r => cont c1 && utf8_valid r | _ => false end
      else if in_range 224 239 b then
        match rest with
        | c1 :: c2 :: r =>
            (if Nat.eqb b 224 then in_range 160 191 c1
             else if Nat.eqb b 237 then in_range 128 159 c1
             else cont c1) && cont c2 && utf8_valid r
        | _ => false
        end
      else if in_range 240 244 b then
        match rest with
        | c1 :: c2 :: c3 :: r =>
            (if Nat.eqb b 240 then in_range 144 191 c1
             else if Nat.eqb b 244 then in_range 128 143 c1
             else cont c1) && cont c2 && cont c3 && utf8_valid r
        | _ => false
        end
      else false
  end.

(** The bytes of a [String] built from a byte vector. *)
Fixpoint bytes_to_string (l : list Byte.byte) : string :=
  match l with
  | [] => EmptyString
  | b :: rest => String (Ascii.ascii_of_byte b) (bytes_to_string rest)
  end.

(** [String::from_utf8]; the text of the [Utf8Error] is not modelled. *)
Definition from_utf8 (data : list Byte.byte) : result string string :=
  if utf8_valid (map Byte.to_nat data) then Ok (bytes_to_string data)
  else Err "invalid utf-8 sequence".

(** [Path::extension]: the file name after its last ['.'], unless that
    dot is the name's first character. *)
Definition file_extension (path : string) : option string :=
  match file_name path with
  | Some name =>
      match rev (split_on "."%char name) with
      | [] | [_] => None
      | after :: before_rev =>
          if String.eqb (String.concat "." (rev before_rev)) "" then None else Some after
      end
  | None => None
  end.

Section Files.

Variable w : World.

(** The JSON parser, [serde_json::from_str], with its error message. *)
Variable json_parse : string -> result Value string.

(** [FSContext::read] *)
Definition FSContext_read (ctx : FSContext) (rel_path : string) : result string string :=
  if is_zip ctx then
    match zip_entries ctx !! rel_path with
    | None => Err ("File not found: " +:+ rel_path)
    | Some data =>
        match from_utf8 data with
        | Ok s => Ok s
        | Err e => Err ("Invalid UTF-8: " +:+ e)
        end
    end
  else
    match w_read_to_string w (path_join (base_path ctx) rel_path) with
    | Ok s => Ok s
    | Err e => Err ("Cannot read file: " +:+ e)
    end.

(** [FSContext::read_json] *)
Definition FSContext_read_json (ctx : FSContext) (rel_path : string) : result Value string :=
  match FSContext_read ctx rel_path with
  | Err e => Err e
  | Ok content =>
      match json_parse content with
      | Ok v => Ok v
      | Err e => Err ("Invalid JSON: " +:+ e)
      end
  end.

(** [validate_json_file] *)
Definition validate_json_file (ctx : FSContext) (rel_path : string) (path : list string)
    (issues : Issues) (content_validator : option Validator) : option Value * Issues :=
  let file_path := path ++ [rel_path] in
  if negb (FSContext_exists w ctx rel_path) then
    (None, add_issue issues file_path "file.not_found" ("File not found: " +:+ rel_path))
  else if negb (FSContext_is_file w ctx rel_path) then
    (None, add_issue issues file_path "file.not_file" ("Not a file: " +:+ rel_path))
  else
    match FSContext_read_json ctx rel_path with
    | Ok content =>
        let issues := match content_validator with
                      | Some cv => cv content file_path issues
                      | None => issues
                      end in
        (Some content, issues)
    | Err e => (None, add_issue issues file_path "json.parse_error" e)
    end.

(** [validate_fs_file] *)
Definition validate_fs_file (ctx : FSContext) (rel_path : string) (path : list string)
    (issues : Issues) (ext : option string) : bool * Issues :=
  let file_path := path ++ [rel_path] in
  if negb (FSContext_exists w ctx rel_path) then
    (false, add_issue issues file_path "file.not_found" ("File not found: " +:+ rel_path))
  else if negb (FSContext_is_file w ctx rel_path) then
    (false, add_issue issues file_path "file.not_file" ("Not a file: " +:+ rel_path))
  else
    match ext with
    | Some e =>
        let actual_ext := match file_extension rel_path with Some x => x | None => "" end in
        if negb (String.eqb actual_ext e) then
          (false, add_issue issues file_path "file.wrong_ext"
                    ("Expected ." +:+ e +:+ ", got ." +:+ actual_ext))
        else (true, issues)
    | None => (true, issues)
    end.

(** [validate_fs_directory] *)
Definition validate_fs_directory (ctx : FSContext) (rel_path : string) (path : list string)
    (issues : Issues) : bool * Issues :=
  let dir_path := path ++ [rel_path] in
  if negb (FSContext_exists w ctx rel_path) then
    (false, add_issue issues dir_path "dir.not_found" ("Directory not found: " +:+ rel_path))
  else if negb (FSContext_is_dir w ctx rel_path) then
    (false, add_issue issues dir_path "dir.not_dir" ("Not a directory: " +:+ rel_path))
  else (true, issues).

End Files.

(* ================================================================== *)
(** * Properties *)

(** The path string [add_issue] renders. *)
Definition render_path (path : list string) : string :=
  match path with [] => "(root)" | _ => String.concat "." path end.

Example render_path_nested :
  render_path ["items"; index_segment 2; "name"] = "items.[2].name".
Proof. reflexivity. Qed.

Lemma is_empty_nil {A} (l : list A) : is_empty l = true <-> l = [].
Proof. destruct l; simpl; split; congruence. Qed.

Lemma add_issue_eq issues path code message :
  add_issue issues path code message = issues ++ [mkIssue (render_path path) code message].
Proof. unfold add_issue, render_path. by destruct path. Qed.

(** C1: the [ok] flag of the result of [validate] and of [validate_path]
    is true exactly when the accumulated issue list is empty. *)
Theorem validate_ok_iff_no_issues :
  (forall (value : Value) (validator : Validator),
      ok (validate value validator) = true <-> issues (validate value validator) = []) /\
  (forall (bundle_path : string)
          (validator : string -> list string -> Issues -> option FSContext * Issues),
      ok (validate_path bundle_path validator) = true <->
      issues (validate_path bundle_path validator) = []).
Proof.
  split.
  - intros value validator. unfold validate; simpl. apply is_empty_nil.
  - intros bundle_path validator. unfold validate_path.
    destruct (validator bundle_path [] []) as [c iss]; simpl. apply is_empty_nil.
Qed.

(** C3: [add_issue] appends exactly one issue at the end of the list,
    leaving the earlier issues as they were; its path is ["(root)"] for
    an empty breadcrumb and the segments joined by ["."] otherwise. *)
Theorem add_issue_appends_one (issues : Issues) (path : list string) (code message : string) :
  exists i : Issue,
    add_issue issues path code message = issues ++ [i] /\
    issue_code i = code /\ issue_message i = message /\
    issue_path i = (if is_empty path then "(root)" else String.concat "." path).
Proof.
  exists (mkIssue (if is_empty path then "(root)" else String.concat "." path) code message).
  unfold add_issue. repeat split.
Qed.

(** C2: [validate_oneof] runs each candidate on a fresh empty issue
    list.  Either some candidate yields no issue: then the candidates
    before it all yield issues (it is the first match) and the caller's
    list is returned unchanged; or every candidate yields issues: then
    exactly one [oneof.no_match] issue at the original path is appended,
    and nothing else. *)
Theorem validate_oneof_first_match (value : Value) (path : list string) (issues : Issues)
    (validators : list Validator) :
  (exists pre f post,
      validators = pre ++ f :: post /\
      Forall (fun g : Validator => g value path [] <> []) pre /\
      f value path [] = [] /\
      validate_oneof value path issues validators = issues) \/
  (Forall (fun g : Validator => g value path [] <> []) validators /\
   validate_oneof value path issues validators =
     issues ++ [mkIssue (render_path path) "oneof.no_match"
                  "Value does not match any of the options"]).
Proof.
  induction validators as [|f rest IH]; simpl.
  - right. split; [constructor | apply add_issue_eq].
  - destruct (f value path []) as [|i is] eqn:Ef; simpl.
    + left. exists [], f, rest. repeat split; [constructor | exact Ef].
    + destruct IH as [(pre & g & post & -> & Hpre & Hg & Hres) | [Hall Hres]].
      * left. exists (f :: pre), g, post. repeat split; try done.
        constructor; [rewrite Ef; discriminate | exact Hpre].
      * right. split; [| exact Hres].
        constructor; [rewrite Ef; discriminate | exact Hall].
Qed.

(** C4: a pattern that does not compile adds no issue: [validate_str]
    behaves as with no pattern, and [validate_pattern] only checks that
    the value is a string. *)
Theorem malformed_pattern_ignored (regex_new : RegexNew) (pattern : string)
    (Hbad : regex_new pattern = None)
    (value : Value) (path : list string) (issues : Issues) (min_length max_length : option nat) :
  validate_str regex_new value path issues min_length max_length (Some pattern) =
    validate_str regex_new value path issues min_length max_length None /\
  validate_pattern regex_new value path issues pattern =
    match as_str value with
    | Some _ => issues
    | None =>
        add_issue issues path "type.mismatch"
          ("Expected string for pattern match, got " +:+ debug_value value)
    end.
Proof.
  unfold validate_str, validate_pattern. rewrite Hbad.
  split; by destruct (as_str value).
Qed.

(** A regex engine in which only the empty pattern compiles. *)
Definition regex_only_empty : RegexNew :=
  fun p => if String.eqb p "" then Some (fun _ => true) else None.

Lemma malformed_pattern_ignored_witness :
  regex_only_empty "(" = None /\
  validate_str regex_only_empty (Str "ab") ["name"] [] (Some 1) None (Some "(") =
    validate_str regex_only_empty (Str "ab") ["name"] [] (Some 1) None None /\
  validate_pattern regex_only_empty (Str "ab") ["name"] [] "(" = [].
Proof.
  assert (H : regex_only_empty "(" = None) by reflexivity.
  destruct (malformed_pattern_ignored regex_only_empty "(" H (Str "ab") ["name"] [] (Some 1) None)
    as [H1 H2].
  split; [exact H | split; [exact H1 | exact H2]].
Defined.

(** A file system holding one readable archive file at [path] whose only
    entry is [data/x.txt]. *)
Definition world_one_archive (path : string) : World :=
  mkWorld (fun p => String.eqb p path) (fun _ => false) (fun p => String.eqb p path)
    (fun _ => None)
    (fun _ => Ok [Ok (mkZipEntry "data/x.txt" false (Ok []))])
    (fun _ => Err "not a directory bundle").

(** C5 (code): with [zip_ext = Some "bndl"] and archives accepted,
    [validate_bundle] classifies the existing file [pkg.bndl] as an
    archive, but [FSContext::new] only recognizes the suffixes [.zip] and
    [.asks], so no context is returned and a [bundle.open_error] is
    recorded. *)
Theorem validate_bundle_alt_ext_open_error :
  validate_bundle (world_one_archive "pkg.bndl") regex_only_empty "pkg.bndl" [] []
      false true (Some "bndl") None None =
    (None, [mkIssue "(root)" "bundle.open_error" "Not a valid bundle: pkg.bndl"]).
Proof. vm_compute. reflexivity. Qed.

(** The same archive named [pkg.zip] is opened. *)
Example validate_bundle_zip_opens :
  fst (validate_bundle (world_one_archive "pkg.zip") regex_only_empty "pkg.zip" [] []
         false true None None None) =
    Some (mkFSContext "pkg.zip" true {[ "data/x.txt" := [] ]}).
Proof. vm_compute. reflexivity. Qed.

Lemma f64_lt_spec (a b : Q) : f64_lt a b = true <-> (a < b)%Q.
Proof.
  unfold f64_lt. rewrite negb_true_iff. split.
  - intros H. apply Qnot_le_lt. intros Hle. apply Qle_bool_iff in Hle. congruence.
  - intros H. destruct (Qle_bool b a) eqn:E; [|done].
    apply Qle_bool_iff in E. exfalso. exact (Qlt_not_le _ _ H E).
Qed.

Ltac split_checks :=
  repeat match goal with
  | |- context [if ?b then _ else _] => destruct b
  | |- context [match ?o with Some _ => _ | None => _ end] => destruct o
  end.

(** C6: on a number [n], [validate_num] runs the integer, minimum and
    maximum checks one after the other with no short-circuit: the issues
    it appends are, in this order, [num.not_integer] when the integer
    constraint is set and [n] has a fractional part, [num.too_small] when
    [n] is below the minimum and [num.too_large] when it is above the
    maximum, all at the current path. *)
Theorem validate_num_independent_checks (value : Value) (n : Q) (Hnum : as_f64 value = Some n)
    (path : list string) (issues : Issues) (min max : option Q) (integer : bool) :
  exists added : Issues,
    validate_num value path issues min max integer = issues ++ added /\
    map issue_code added =
      (if integer && fract_nonzero n then ["num.not_integer"] else []) ++
      (match min with Some m => if f64_lt n m then ["num.too_small"] else [] | None => [] end) ++
      (match max with Some m => if f64_lt m n then ["num.too_large"] else [] | None => [] end) /\
    Forall (fun i => issue_path i = render_path path) added.
Proof.
  unfold validate_num, num_checks. rewrite Hnum.
  split_checks; rewrite ?add_issue_eq, <- ?app_assoc; eexists;
    (split; [first [reflexivity | symmetry; apply app_nil_r] |]); simpl;
    (split; [reflexivity | repeat constructor]).
Qed.

Lemma validate_num_independent_checks_witness :
  as_f64 (Num (Float (-1 # 2))) = Some (-1 # 2)%Q /\
  exists added : Issues,
    validate_num (Num (Float (-1 # 2))) [] [] (Some 0%Q) (Some 5%Q) true = [] ++ added /\
    map issue_code added = ["num.not_integer"; "num.too_small"] /\
    Forall (fun i => issue_path i = "(root)") added.
Proof.
  assert (H : as_f64 (Num (Float (-1 # 2))) = Some (-1 # 2)%Q) by reflexivity.
  split; [exact H |].
  destruct (validate_num_independent_checks _ _ H [] [] (Some 0%Q) (Some 5%Q) true)
    as (added & H1 & H2 & H3).
  exists added. split; [exact H1 |]. split; [exact H2 | exact H3].
Defined.

Lemma fold_left_ext_in {A B} (f g : B -> A -> B) (l : list A) (acc : B) :
  (forall b y, In y l -> f b y = g b y) -> fold_left f l acc = fold_left g l acc.
Proof.
  revert acc. induction l as [|y l IH]; intros acc Hfg; simpl; [done |].
  rewrite Hfg by (left; done). apply IH. intros b z Hz. apply Hfg. by right.
Qed.

Lemma fold_enumerate_from {A B} (f : nat -> A -> B -> B) (l : list A) (k : nat) (acc : B) :
  fold_left (fun acc (ix : nat * A) => let '(i, x) := ix in f i x acc)
            (combine (seq k (length l)) l) acc =
  fold_left (fun acc j => match l !! (j - k) with Some x => f j x acc | None => acc end)
            (seq k (length l)) acc.
Proof.
  revert k acc. induction l as [|x l IH]; intros k acc; simpl; [done |].
  rewrite Nat.sub_diag. simpl. rewrite IH.
  apply fold_left_ext_in. intros b j Hj. apply in_seq in Hj.
  replace (j - k) with (S (j - S k)) by lia. done.
Qed.

Lemma fold_enumerate {A B} (f : nat -> A -> B -> B) (l : list A) (acc : B) :
  fold_left (fun acc (ix : nat * A) => let '(i, x) := ix in f i x acc) (enumerate l) acc =
  fold_left (fun acc j => match l !! j with Some x => f j x acc | None => acc end)
            (seq 0 (length l)) acc.
Proof.
  unfold enumerate. rewrite fold_enumerate_from.
  apply fold_left_ext_in. intros b j _. by rewrite Nat.sub_0_r.
Qed.

(** C7: on an array, [validate_list] first appends [list.too_short] when
    the array is shorter than [min_items] and [list.too_long] when it is
    longer than [max_items], then, whatever the bounds gave, runs the item
    validator on every element in order, index [i] extending the path by
    ["[i]"].  On a value that is not an array it appends one
    [type.mismatch] issue and runs no item validation. *)
Theorem validate_list_bounds_and_items :
  (forall (arr : list Value) (path : list string) (issues : Issues)
          (item_validator : option Validator) (min_items max_items : option nat),
    exists bounds : Issues,
      map issue_code bounds =
        (match min_items with
         | Some m => if Nat.ltb (length arr) m then ["list.too_short"] else []
         | None => [] end) ++
        (match max_items with
         | Some m => if Nat.ltb m (length arr) then ["list.too_long"] else []
         | None => [] end) /\
      Forall (fun i => issue_path i = render_path path) bounds /\
      validate_list (Array arr) path issues item_validator min_items max_items =
        match item_validator with
        | Some iv =>
            fold_left (fun acc j =>
                         match arr !! j with
                         | Some item => iv item (path ++ [index_segment j]) acc
                         | None => acc
                         end)
                      (seq 0 (length arr)) (issues ++ bounds)
        | None => issues ++ bounds
        end) /\
  (forall (value : Value) (path : list string) (issues : Issues),
    as_array value = None ->
    exists i : Issue,
      issue_code i = "type.mismatch" /\ issue_path i = render_path path /\
      forall (item_validator : option Validator) (min_items max_items : option nat),
        validate_list value path issues item_validator min_items max_items = issues ++ [i]).
Proof.
  split.
  - intros arr path issues item_validator min_items max_items.
    unfold validate_list; simpl.
    assert (Hb : exists bounds : Issues,
      map issue_code bounds =
        (match min_items with
         | Some m => if Nat.ltb (length arr) m then ["list.too_short"] else []
         | None => [] end) ++
        (match max_items with
         | Some m => if Nat.ltb m (length arr) then ["list.too_long"] else []
         | None => [] end) /\
      Forall (fun i => issue_path i = render_path path) bounds /\
      (match max_items with
       | Some max =>
           if Nat.ltb max (length arr) then
             add_issue
               (match min_items with
                | Some min =>
                    if Nat.ltb (length arr) min then
                      add_issue issues path "list.too_short"
                        ("Array length " +:+ pretty (length arr) +:+
                         " is less than minimum " +:+ pretty min)
                    else issues
                | None => issues
                end) path "list.too_long"
               ("Array length " +:+ pretty (length arr) +:+ " exceeds maximum " +:+ pretty max)
           else
             (match min_items with
              | Some min =>
                  if Nat.ltb (length arr) min then
                    add_issue issues path "list.too_short"
                      ("Array length " +:+ pretty (length arr) +:+
                       " is less than minimum " +:+ pretty min)
                  else issues
              | None => issues
              end)
       | None =>
           match min_items with
           | Some min =>
               if Nat.ltb (length arr) min then
                 add_issue issues path "list.too_short"
                   ("Array length " +:+ pretty (length arr) +:+
                    " is less than minimum " +:+ pretty min)
               else issues
           | None => issues
           end
       end) = issues ++ bounds).
    { split_checks; rewrite ?add_issue_eq, <- ?app_assoc; eexists;
        (split; [| split; [| first [reflexivity | symmetry; apply app_nil_r]]]);
        simpl; try reflexivity; repeat constructor. }
    destruct Hb as (bounds & Hcodes & Hpaths & Hres).
    exists bounds. split; [exact Hcodes |]. split; [exact Hpaths |].
    rewrite Hres. destruct item_validator as [iv|]; [| done].
    pose proof (fold_enumerate (fun i item acc => iv item (path ++ [index_segment i]) acc)
                  arr (issues ++ bounds)) as E.
    cbn beta in E. exact E.
  - intros value path issues Hnot.
    exists (mkIssue (render_path path) "type.mismatch" ("Expected array, got " +:+ debug_value value)).
    split; [done |]. split; [done |].
    intros item_validator min_items max_items.
    unfold validate_list. rewrite Hnot. apply add_issue_eq.
Qed.

Lemma validate_list_bounds_and_items_witness :
  as_array (Str "x") = None /\
  exists i : Issue,
    issue_code i = "type.mismatch" /\ issue_path i = "items" /\
    validate_list (Str "x") ["items"] [] None (Some 1) None = [i].
Proof.
  assert (H : as_array (Str "x") = None) by reflexivity.
  split; [exact H |].
  destruct (proj2 validate_list_bounds_and_items (Str "x") ["items"] [] H) as (i & H1 & H2 & H3).
  exists i. split; [exact H1 |]. split; [exact H2 |]. exact (H3 None (Some 1) None).
Defined.

Lemma existsb_keys_spec (m : gmap string (list Byte.byte)) (P : string -> bool) :
  existsb P (keys m) = true <-> exists k v, m !! k = Some v /\ P k = true.
Proof.
  unfold keys. rewrite existsb_exists. split.
  - intros (k & Hk & HP). apply in_map_iff in Hk as ([k' v] & <- & Hin).
    apply list_elem_of_In, elem_of_map_to_list in Hin. by exists k', v.
  - intros (k & v & Hk & HP). exists k. split; [| done].
    apply in_map_iff. exists (k, v). split; [done |].
    apply list_elem_of_In, elem_of_map_to_list. done.
Qed.

Lemma contains_key_spec (m : gmap string (list Byte.byte)) (k : string) :
  contains_key m k = true <-> is_Some (m !! k).
Proof. unfold contains_key. destruct (m !! k); split; intros H; by inversion H. Qed.

(** An archive-backed context whose only entry is [data/x.txt]. *)
Definition ctx_data_x : FSContext := mkFSContext "pkg.zip" true {[ "data/x.txt" := [] ]}.

(** C8: on an archive-backed context, [exists p] holds exactly when [p]
    is a key of the entry map or some key starts with [p ++ "/"]; for an
    archive holding only [data/x.txt], [exists "data"] holds although
    ["data"] is not a key. *)
Theorem zip_exists_spec :
  (forall (w : World) (ctx : FSContext) (p : string),
    is_zip ctx = true ->
    (FSContext_exists w ctx p = true <->
     is_Some (zip_entries ctx !! p) \/
     exists k v, zip_entries ctx !! k = Some v /\ starts_with k (p +:+ "/") = true)) /\
  (forall w : World,
    FSContext_exists w ctx_data_x "data" = true /\ zip_entries ctx_data_x !! "data" = None).
Proof.
  split.
  - intros w ctx p Hzip. unfold FSContext_exists. rewrite Hzip.
    rewrite orb_true_iff, contains_key_spec, existsb_keys_spec. done.
  - intros w. split; vm_compute; reflexivity.
Qed.

Lemma zip_exists_spec_witness :
  is_zip ctx_data_x = true /\
  (FSContext_exists (world_one_archive "pkg.zip") ctx_data_x "data" = true <->
   is_Some (zip_entries ctx_data_x !! "data") \/
   exists k v, zip_entries ctx_data_x !! k = Some v /\ starts_with k ("data" +:+ "/") = true).
Proof.
  assert (H : is_zip ctx_data_x = true) by reflexivity.
  split; [exact H |]. exact (proj1 zip_exists_spec (world_one_archive "pkg.zip") ctx_data_x "data" H).
Defined.

(** C9: on a value that is not an object, [validate_field] leaves the
    issue list unchanged, whatever the key, validator and optional flag. *)
Theorem validate_field_non_object (obj : Value) (Hnot : is_object obj = false)
    (path : list string) (issues : Issues) (key : string) (validator : option Validator)
    (optional : bool) :
  validate_field obj path issues key validator optional = issues.
Proof. unfold validate_field. destruct obj; done. Qed.

Lemma validate_field_non_object_witness :
  is_object (Array []) = false /\
  validate_field (Array []) ["cfg"] [] "name" None false = [].
Proof.
  assert (H : is_object (Array []) = false) by reflexivity.
  split; [exact H | exact (validate_field_non_object _ H ["cfg"] [] "name" None false)].
Defined.

(** C10: on an archive-backed context, [exists p] is [is_file p || is_dir p]. *)
Theorem zip_exists_is_file_or_dir (w : World) (ctx : FSContext) (Hzip : is_zip ctx = true)
    (p : string) :
  FSContext_exists w ctx p = FSContext_is_file w ctx p || FSContext_is_dir w ctx p.
Proof. unfold FSContext_exists, FSContext_is_file, FSContext_is_dir. by rewrite Hzip. Qed.

Lemma zip_exists_is_file_or_dir_witness :
  is_zip ctx_data_x = true /\
  FSContext_exists (world_one_archive "pkg.zip") ctx_data_x "data" =
    FSContext_is_file (world_one_archive "pkg.zip") ctx_data_x "data" ||
    FSContext_is_dir (world_one_archive "pkg.zip") ctx_data_x "data".
Proof.
  assert (H : is_zip ctx_data_x = true) by reflexivity.
  split; [exact H | exact (zip_exists_is_file_or_dir _ ctx_data_x H "data")].
Defined.

(* ------------------------------------------------------------------ *)
(** * Further properties of the value validators *)

(** [validate_literal_str] leaves the issues unchanged exactly when the
    value is the expected string; otherwise it appends one
    [literal.mismatch] issue at the current path. *)
Theorem validate_literal_str_spec (value : Value) (path : list string) (issues : Issues)
    (expected : string) :
  (validate_literal_str value path issues expected = issues <-> value = Str expected) /\
  (value <> Str expected ->
   exists i, validate_literal_str value path issues expected = issues ++ [i] /\
             issue_code i = "literal.mismatch" /\ issue_path i = render_path path).
Proof.
  unfold validate_literal_str.
  destruct (as_str value) as [s|] eqn:Hs.
  - destruct value; try discriminate. injection Hs as ->.
    destruct (String.eqb_spec s expected) as [->|Hne].
    + split; [done | intros []; done].
    + rewrite add_issue_eq. split.
      * split; [intros H; apply (f_equal (@length _)) in H; rewrite length_app in H; simpl in H; lia
                | intros [= ?]; done].
      * intros _. eexists. done.
  - assert (Hv : value <> Str expected) by (intros ->; discriminate).
    rewrite add_issue_eq. split.
    + split; [intros H; apply (f_equal (@length _)) in H; rewrite length_app in H; simpl in H; lia
              | done].
    + intros _. eexists. done.
Qed.

Lemma validate_literal_str_spec_witness :
  Str "inactive" <> Str "active" /\
  exists i, validate_literal_str (Str "inactive") [] [] "active" = [] ++ [i] /\
            issue_code i = "literal.mismatch" /\ issue_path i = "(root)".
Proof.
  assert (H : Str "inactive" <> Str "active") by discriminate.
  split; [exact H |].
  exact (proj2 (validate_literal_str_spec (Str "inactive") [] [] "active") H).
Defined.

(** [validate_literal_i64] leaves the issues unchanged exactly when
    [as_i64] gives the expected integer; in particular a float value (even
    an integral one such as 1.0) and an unsigned integer above [i64::MAX]
    never match.  Otherwise it appends one [literal.mismatch] issue. *)
Theorem validate_literal_i64_spec (value : Value) (path : list string) (issues : Issues)
    (expected : Z) :
  (validate_literal_i64 value path issues expected = issues <-> as_i64 value = Some expected) /\
  (as_i64 value <> Some expected ->
   exists i, validate_literal_i64 value path issues expected = issues ++ [i] /\
             issue_code i = "literal.mismatch" /\ issue_path i = render_path path) /\
  (forall q : Q, as_i64 (Num (Float q)) <> Some expected) /\
  (forall n : N, (i64_max < Z.of_N n)%Z -> as_i64 (Num (PosInt n)) <> Some expected).
Proof.
  assert (Hgrow : forall i, issues ++ [i] <> issues).
  { intros i H. apply (f_equal (@length _)) in H. rewrite length_app in H. simpl in H. lia. }
  unfold validate_literal_i64. repeat split.
  - destruct (as_i64 value) as [n|]; [| rewrite add_issue_eq; intros H; by apply Hgrow in H].
    destruct (Z.eqb_spec n expected) as [->|Hne]; [done |].
    rewrite add_issue_eq. intros H. by apply Hgrow in H.
  - intros H. rewrite H. by rewrite Z.eqb_refl.
  - intros Hne. destruct (as_i64 value) as [n|].
    + destruct (Z.eqb_spec n expected) as [->|_]; [done |].
      rewrite add_issue_eq. eexists. done.
    + rewrite add_issue_eq. eexists. done.
  - intros q. discriminate.
  - intros n Hn. simpl. destruct (Z.leb_spec (Z.of_N n) i64_max); [lia | discriminate].
Qed.

Lemma validate_literal_i64_spec_witness :
  as_i64 (Num (Float 1)) <> Some 1%Z /\
  (i64_max < Z.of_N 9223372036854775808)%Z /\
  exists i, validate_literal_i64 (Num (Float 1)) [] [] 1 = [] ++ [i] /\
            issue_code i = "literal.mismatch" /\ issue_path i = "(root)".
Proof.
  assert (H : as_i64 (Num (Float 1)) <> Some 1%Z) by discriminate.
  assert (H2 : (i64_max < Z.of_N 9223372036854775808)%Z) by (vm_compute; reflexivity).
  destruct (validate_literal_i64_spec (Num (Float 1)) [] [] 1) as (_ & Hmis & _ & Hbig).
  split; [exact H |]. split; [exact H2 |]. exact (Hmis H).
Defined.

(** The type guards: [validate_bool] leaves the issues unchanged exactly
    on booleans; [validate_object] returns [true] exactly on objects, and
    its flag is [true] exactly when it added no issue. *)
Theorem type_guards_spec (value : Value) (path : list string) (issues : Issues) :
  (validate_bool value path issues = issues <-> is_boolean value = true) /\
  fst (validate_object value path issues) = is_object value /\
  (fst (validate_object value path issues) = true <-> snd (validate_object value path issues) = issues).
Proof.
  assert (Hgrow : forall i, issues ++ [i] <> issues).
  { intros i H. apply (f_equal (@length _)) in H. rewrite length_app in H. simpl in H. lia. }
  unfold validate_bool, validate_object.
  destruct (is_boolean value), (is_object value); simpl; rewrite ?add_issue_eq;
    repeat split; try done; intros H; by apply Hgrow in H.
Qed.

(** On a string [s], [validate_str] runs its three checks with no
    short-circuit: it appends, in this order, [str.too_short] when [s] is
    shorter than [min_length], [str.too_long] when it is longer than
    [max_length], and [str.pattern_mismatch] when the pattern compiles and
    does not match [s], all at the current path. *)
Theorem validate_str_checks (regex_new : RegexNew) (s : string) (path : list string)
    (issues : Issues) (min_length max_length : option nat) (pattern : option string) :
  exists added : Issues,
    validate_str regex_new (Str s) path issues min_length max_length pattern = issues ++ added /\
    map issue_code added =
      (match min_length with
       | Some m => if Nat.ltb (String.length s) m then ["str.too_short"] else []
       | None => [] end) ++
      (match max_length with
       | Some m => if Nat.ltb m (String.length s) then ["str.too_long"] else []
       | None => [] end) ++
      (match pattern with
       | Some p =>
           match regex_new p with
           | Some is_match => if is_match s then [] else ["str.pattern_mismatch"]
           | None => []
           end
       | None => [] end) /\
    Forall (fun i => issue_path i = render_path path) added.
Proof.
  unfold validate_str; simpl.
  destruct pattern as [p|]; simpl; [destruct (regex_new p) as [is_match|]; [simpl; destruct (is_match s); simpl|]|];
  split_checks; simpl; rewrite ?add_issue_eq, <- ?app_assoc; eexists;
    (split; [first [reflexivity | symmetry; apply app_nil_r] |]); simpl;
    (split; [reflexivity | repeat constructor]).
Qed.

(** On a value of the wrong type, [validate_str], [validate_pattern] and
    [validate_num] append exactly one [type.mismatch] issue at the current
    path, the same whatever the constraints: no length, pattern or range
    check runs. *)
Theorem wrong_type_single_mismatch (value : Value) (path : list string) (issues : Issues) :
  (as_str value = None ->
   exists i, issue_code i = "type.mismatch" /\ issue_path i = render_path path /\
     forall regex_new min_length max_length pattern,
       validate_str regex_new value path issues min_length max_length pattern = issues ++ [i]) /\
  (as_str value = None ->
   exists i, issue_code i = "type.mismatch" /\ issue_path i = render_path path /\
     forall regex_new pattern, validate_pattern regex_new value path issues pattern = issues ++ [i]) /\
  (as_f64 value = None ->
   exists i, issue_code i = "type.mismatch" /\ issue_path i = render_path path /\
     forall min max integer, validate_num value path issues min max integer = issues ++ [i]).
Proof.
  repeat split; intros H; eexists; (split; [| split]);
    [| | intros; unfold validate_str; rewrite H; apply add_issue_eq
     | | | intros; unfold validate_pattern; rewrite H; apply add_issue_eq
     | | | intros; unfold validate_num; rewrite H;
           destruct value as [| |[]| | |]; try discriminate; apply add_issue_eq];
    reflexivity.
Qed.

Lemma wrong_type_single_mismatch_witness :
  as_str (Num (PosInt 3)) = None /\ as_f64 (Str "3") = None /\
  exists i, issue_code i = "type.mismatch" /\ issue_path i = "age" /\
    validate_str regex_only_empty (Num (PosInt 3)) ["age"] [] (Some 1) (Some 2) (Some "") = [i].
Proof.
  assert (H1 : as_str (Num (PosInt 3)) = None) by reflexivity.
  assert (H2 : as_f64 (Str "3") = None) by reflexivity.
  split; [exact H1 |]. split; [exact H2 |].
  destruct (proj1 (wrong_type_single_mismatch (Num (PosInt 3)) ["age"] []) H1) as (i & Hc & Hp & He).
  exists i. split; [exact Hc |]. split; [exact Hp |].
  exact (He regex_only_empty (Some 1) (Some 2) (Some "")).
Defined.

(** [validate_field] on an object: a present key hands the first value
    stored under it to the validator with the path extended by the key
    (and is a silent pass with no validator); a missing required key
    appends one [field.missing] issue at the object's own path; a missing
    optional key adds nothing. *)
Theorem validate_field_cases (m : list (string * Value)) (path : list string) (issues : Issues)
    (key : string) (validator : option Validator) (optional : bool) :
  (forall v, map_get key m = Some v ->
     validate_field (Object m) path issues key validator optional =
       match validator with Some f => f v (path ++ [key]) issues | None => issues end) /\
  (map_get key m = None -> optional = false ->
     validate_field (Object m) path issues key validator optional =
       issues ++ [mkIssue (render_path path) "field.missing" ("Missing required field: " +:+ key)]) /\
  (map_get key m = None -> optional = true ->
     validate_field (Object m) path issues key validator optional = issues).
Proof.
  unfold validate_field; simpl. repeat split.
  - intros v Hv. by rewrite Hv.
  - intros Hn ->. rewrite Hn. apply add_issue_eq.
  - intros Hn ->. by rewrite Hn.
Qed.

Lemma validate_field_cases_witness :
  map_get "name" [("id", Num (PosInt 1))] = None /\
  validate_field (Object [("id", Num (PosInt 1))]) ["user"] [] "name" None false =
    [mkIssue "user" "field.missing" "Missing required field: name"].
Proof.
  assert (H : map_get "name" [("id", Num (PosInt 1))] = None) by reflexivity.
  split; [exact H |].
  exact (proj1 (proj2 (validate_field_cases [("id", Num (PosInt 1))] ["user"] [] "name" None false))
           H eq_refl).
Defined.

(** A validator that only appends to the list it is handed: what it adds
    does not depend on the issues already recorded. *)
Definition appends_only (f : Validator) : Prop :=
  forall value path issues, f value path issues = issues ++ f value path [].

Lemma add_issue_frame issues path code message :
  add_issue issues path code message = issues ++ add_issue [] path code message.
Proof. by rewrite !add_issue_eq. Qed.

Ltac frame_solve :=
  split_checks; rewrite ?add_issue_eq; simpl; rewrite <- ?app_assoc; try reflexivity;
  rewrite ?app_nil_r; reflexivity.

(** Every primitive validator, and [validate_oneof] whatever its
    candidates, only appends: it never removes, reorders or rewrites the
    issues recorded before it, and what it adds does not depend on them. *)
Theorem primitives_append_only :
  (forall regex_new min_length max_length pattern,
     appends_only (fun v p i => validate_str regex_new v p i min_length max_length pattern)) /\
  (forall regex_new pattern, appends_only (fun v p i => validate_pattern regex_new v p i pattern)) /\
  (forall min max integer, appends_only (fun v p i => validate_num v p i min max integer)) /\
  appends_only validate_bool /\
  (forall expected, appends_only (fun v p i => validate_literal_str v p i expected)) /\
  (forall expected, appends_only (fun v p i => validate_literal_i64 v p i expected)) /\
  (forall validators, appends_only (fun v p i => validate_oneof v p i validators)).
Proof.
  repeat split; intros; unfold appends_only; intros value path issues.
  - unfold validate_str. frame_solve.
  - unfold validate_pattern. frame_solve.
  - unfold validate_num, num_checks. frame_solve.
  - unfold validate_bool. frame_solve.
  - unfold validate_literal_str. frame_solve.
  - unfold validate_literal_i64. frame_solve.
  - induction validators as [|f rest IH]; simpl.
    + apply add_issue_frame.
    + destruct (is_empty (f value path [])); [by rewrite app_nil_r | exact IH].
Qed.




(* ------------------------------------------------------------------ *)
(** * Further properties of the file system context *)

(** An archive entry that [FSContext::new] reads without error. *)
Definition entry_loads (r : result ZipEntry string) : Prop :=
  match r with
  | Err _ => False
  | Ok e => ze_is_dir e = false -> exists d, ze_data e = Ok d
  end.

Lemma load_entries_ok (es : list (result ZipEntry string)) (m0 m : gmap string (list Byte.byte)) :
  load_entries es m0 = Ok m ->
  (forall k d, m !! k = Some d ->
     m0 !! k = Some d \/
     exists e, In (Ok e) es /\ ze_is_dir e = false /\ ze_name e = k /\ ze_data e = Ok d) /\
  (forall k, is_Some (m0 !! k) \/
     (exists e, In (Ok e) es /\ ze_is_dir e = false /\ ze_name e = k) -> is_Some (m !! k)) /\
  Forall entry_loads es.
Proof.
  revert m0. induction es as [|[e|err] es IH]; intros m0 Hload; simpl in Hload.
  - injection Hload as ->. split; [by left |]. split; [| constructor].
    intros k [Hk | (e & [] & _)]. exact Hk.
  - destruct (ze_is_dir e) eqn:Hdir; simpl in Hload.
    + destruct (IH m0 Hload) as (H1 & H2 & H3). split; [| split].
      * intros k d Hk. destruct (H1 k d Hk) as [Hm | (e' & Hin & Hd & Hn & Hdat)]; [by left |].
        right. exists e'. repeat split; auto. by right.
      * intros k [Hk | (e' & [Heq | Hin] & Hd & Hn)]; [by apply H2; left | |].
        -- injection Heq as ->. congruence.
        -- apply H2. right. by exists e'.
      * constructor; [simpl; congruence | exact H3].
    + destruct (ze_data e) as [d|msg] eqn:Hdata; [| discriminate].
      destruct (IH _ Hload) as (H1 & H2 & H3). split; [| split].
      * intros k d' Hk. destruct (H1 k d' Hk) as [Hm | (e' & Hin & Hd & Hn & Hdat)].
        -- rewrite lookup_insert in Hm. case_decide as Heq.
           ++ injection Hm as <-. right. exists e. subst k. repeat split; auto. by left.
           ++ by left.
        -- right. exists e'. repeat split; auto. by right.
      * intros k [Hk | (e' & [Heq | Hin] & Hd & Hn)].
        -- apply H2. left. rewrite lookup_insert. case_decide; [done | exact Hk].
        -- injection Heq as ->. apply H2. left. subst k. rewrite lookup_insert_eq. done.
        -- apply H2. right. by exists e'.
      * constructor; [intros _; by exists d | exact H3].
  - discriminate.
Qed.

(** A context built by [FSContext::new] keeps the path it was given.  A
    directory context has no entries.  An archive context comes from an
    existing file, not a directory, named [.zip] or [.asks], whose archive
    opened; every entry of that archive was read without error, and the
    keys of the entry map are exactly the names of its non-directory
    entries, each holding the bytes of an entry of that name. *)
Theorem FSContext_new_ok_spec (w : World) (path : string) (ctx : FSContext)
    (Hnew : FSContext_new w path = Ok ctx) :
  base_path ctx = path /\
  (is_zip ctx = false -> w_is_dir w path = true /\ zip_entries ctx = ∅) /\
  (is_zip ctx = true ->
     w_is_dir w path = false /\ w_is_file w path = true /\
     (ends_with path ".zip" || ends_with path ".asks") = true /\
     w_open w path = None /\
     exists es, w_archive w path = Ok es /\ Forall entry_loads es /\
       (forall k, is_Some (zip_entries ctx !! k) <->
          exists e, In (Ok e) es /\ ze_is_dir e = false /\ ze_name e = k) /\
       (forall k d, zip_entries ctx !! k = Some d ->
          exists e, In (Ok e) es /\ ze_is_dir e = false /\ ze_name e = k /\ ze_data e = Ok d)).
Proof.
  unfold FSContext_new in Hnew.
  destruct (w_is_dir w path) eqn:Hdir.
  - injection Hnew as <-. simpl. repeat split; done.
  - destruct (w_is_file w path && (ends_with path ".zip" || ends_with path ".asks")) eqn:Hf;
      [| discriminate].
    apply andb_true_iff in Hf as [Hfile Hext].
    destruct (w_open w path) eqn:Hopen; [discriminate |].
    destruct (w_archive w path) as [es|] eqn:Har; [| discriminate].
    destruct (load_entries es ∅) as [m|] eqn:Hload; [| discriminate].
    injection Hnew as <-. simpl.
    destruct (load_entries_ok es ∅ m Hload) as (H1 & H2 & H3).
    split; [done |]. split; [discriminate |]. intros _.
    repeat split; try done. exists es. split; [done |]. split; [done |]. split.
    + intros k. split.
      * intros [d Hk]. destruct (H1 k d Hk) as [He | (e & Hin & Hd & Hn & _)].
        -- by rewrite lookup_empty in He.
        -- by exists e.
      * intros Hex. apply H2. by right.
    + intros k d Hk. destruct (H1 k d Hk) as [He | Hex]; [by rewrite lookup_empty in He | exact Hex].
Qed.

Lemma FSContext_new_ok_spec_witness :
  FSContext_new (world_one_archive "pkg.zip") "pkg.zip" = Ok ctx_data_x /\
  base_path ctx_data_x = "pkg.zip".
Proof.
  assert (H : FSContext_new (world_one_archive "pkg.zip") "pkg.zip" = Ok ctx_data_x)
    by (vm_compute; reflexivity).
  split; [exact H | exact (proj1 (FSContext_new_ok_spec _ _ _ H))].
Defined.

Lemma utf8_valid_ascii (l : list nat) : Forall (fun b => b < 128) l -> utf8_valid l = true.
Proof.
  induction 1 as [|b l Hb _ IH]; simpl; [done |].
  destruct (Nat.ltb_spec b 128); [exact IH | lia].
Qed.

Example utf8_valid_two_byte : utf8_valid [195; 169] = true.
Proof. reflexivity. Qed.

Example utf8_invalid_overlong : utf8_valid [192; 128] = false.
Proof. reflexivity. Qed.

Example utf8_invalid_surrogate : utf8_valid [237; 160; 128] = false.
Proof. reflexivity. Qed.

(** [read] on an archive context: a path that is not a key is
    ["File not found"]; an entry whose bytes are all ASCII reads back as
    the string of those bytes; and a successful read only happens on a
    path that [is_file] accepts (a synthetic directory is never read). *)
Theorem zip_read_spec (w : World) (ctx : FSContext) (Hzip : is_zip ctx = true) (p : string) :
  (zip_entries ctx !! p = None -> FSContext_read w ctx p = Err ("File not found: " +:+ p)) /\
  (forall data, zip_entries ctx !! p = Some data ->
     Forall (fun b => Byte.to_nat b < 128) data ->
     FSContext_read w ctx p = Ok (bytes_to_string data)) /\
  (forall s, FSContext_read w ctx p = Ok s -> FSContext_is_file w ctx p = true).
Proof.
  unfold FSContext_read, FSContext_is_file, contains_key. rewrite Hzip.
  split; [| split].
  - intros H. by rewrite H.
  - intros data H Hascii. rewrite H. unfold from_utf8.
    rewrite utf8_valid_ascii; [done |]. by apply Forall_map.
  - intros s. by destruct (zip_entries ctx !! p).
Qed.

Lemma zip_read_spec_witness :
  is_zip ctx_data_x = true /\
  zip_entries ctx_data_x !! "notes.txt" = None /\
  FSContext_read (world_one_archive "pkg.zip") ctx_data_x "notes.txt" = Err "File not found: notes.txt".
Proof.
  assert (H : is_zip ctx_data_x = true) by reflexivity.
  assert (H2 : zip_entries ctx_data_x !! "notes.txt" = None) by (vm_compute; reflexivity).
  split; [exact H |]. split; [exact H2 |].
  exact (proj1 (zip_read_spec (world_one_archive "pkg.zip") ctx_data_x H "notes.txt") H2).
Defined.

(** [validate_json_file] returns no value only after appending exactly one
    issue ([file.not_found], [file.not_file] or [json.parse_error]) at the
    path extended by the file's relative path.  It returns a value only
    for a path [is_file] accepts whose JSON parsed to that value, and then
    the issues are those of the content validator run on it at the
    extended path (unchanged with no validator). *)
Theorem validate_json_file_spec (w : World) (json_parse : string -> result Value string)
    (ctx : FSContext) (rel_path : string) (path : list string) (issues : Issues)
    (content_validator : option Validator) :
  (fst (validate_json_file w json_parse ctx rel_path path issues content_validator) = None ->
   exists i,
     snd (validate_json_file w json_parse ctx rel_path path issues content_validator) = issues ++ [i] /\
     issue_path i = render_path (path ++ [rel_path]) /\
     In (issue_code i) ["file.not_found"; "file.not_file"; "json.parse_error"]) /\
  (forall v,
   fst (validate_json_file w json_parse ctx rel_path path issues content_validator) = Some v ->
   FSContext_is_file w ctx rel_path = true /\
   FSContext_read_json w json_parse ctx rel_path = Ok v /\
   snd (validate_json_file w json_parse ctx rel_path path issues content_validator) =
     match content_validator with Some cv => cv v (path ++ [rel_path]) issues | None => issues end).
Proof.
  unfold validate_json_file.
  destruct (FSContext_exists w ctx rel_path); simpl.
  2: { split; [| discriminate]. intros _. rewrite add_issue_eq. eexists.
       split; [reflexivity |]. simpl. split; [done | by left]. }
  destruct (FSContext_is_file w ctx rel_path) eqn:Hf; simpl.
  2: { split; [| discriminate]. intros _. rewrite add_issue_eq. eexists.
       split; [reflexivity |]. simpl. split; [done | right; by left]. }
  destruct (FSContext_read_json w json_parse ctx rel_path) as [v|e] eqn:Hr; simpl.
  - split; [discriminate |]. intros v' [= <-]. done.
  - split; [| discriminate]. intros _. rewrite add_issue_eq. eexists.
    split; [reflexivity |]. simpl. split; [done | right; right; by left].
Qed.

(** A parser that accepts only the text [null]. *)
Definition parse_null : string -> result Value string :=
  fun s => if String.eqb s "null" then Ok Null else Err "expected value".

Lemma validate_json_file_spec_witness :
  fst (validate_json_file (world_one_archive "pkg.zip") parse_null ctx_data_x "data" [] [] None) = None /\
  exists i,
    snd (validate_json_file (world_one_archive "pkg.zip") parse_null ctx_data_x "data" [] [] None) = [] ++ [i] /\
    issue_path i = "data" /\ In (issue_code i) ["file.not_found"; "file.not_file"; "json.parse_error"].
Proof.
  assert (H : fst (validate_json_file (world_one_archive "pkg.zip") parse_null ctx_data_x "data" [] [] None)
              = None) by (vm_compute; reflexivity).
  split; [exact H |].
  exact (proj1 (validate_json_file_spec (world_one_archive "pkg.zip") parse_null ctx_data_x "data" [] [] None) H).
Defined.

Lemma snoc_neq (issues : Issues) (i : Issue) : issues ++ [i] <> issues.
Proof. intros H. apply (f_equal (@length _)) in H. rewrite length_app in H. simpl in H. lia. Qed.

(** [validate_fs_file] returns [true] exactly when it adds no issue, and
    otherwise appends one issue ([file.not_found], [file.not_file] or
    [file.wrong_ext]) at the path extended by the file's relative path.
    On success the path is a file and, with an extension constraint [e],
    the file's extension is [e], or the file has no extension and [e] is
    empty. *)
Theorem validate_fs_file_spec (w : World) (ctx : FSContext) (rel_path : string)
    (path : list string) (issues : Issues) (ext : option string) :
  (fst (validate_fs_file w ctx rel_path path issues ext) = true <->
   snd (validate_fs_file w ctx rel_path path issues ext) = issues) /\
  (fst (validate_fs_file w ctx rel_path path issues ext) = false ->
   exists i, snd (validate_fs_file w ctx rel_path path issues ext) = issues ++ [i] /\
     issue_path i = render_path (path ++ [rel_path]) /\
     In (issue_code i) ["file.not_found"; "file.not_file"; "file.wrong_ext"]) /\
  (fst (validate_fs_file w ctx rel_path path issues ext) = true ->
   FSContext_is_file w ctx rel_path = true /\
   forall e, ext = Some e ->
     match file_extension rel_path with Some x => x = e | None => e = "" end).
Proof.
  unfold validate_fs_file.
  destruct (FSContext_exists w ctx rel_path); simpl.
  2: { rewrite add_issue_eq. split; [split; [discriminate | intros H; by apply snoc_neq in H] |].
       split; [| discriminate]. intros _. eexists. split; [reflexivity |]. split; [done | by left]. }
  destruct (FSContext_is_file w ctx rel_path) eqn:Hf; simpl.
  2: { rewrite add_issue_eq. split; [split; [discriminate | intros H; by apply snoc_neq in H] |].
       split; [| discriminate]. intros _. eexists. split; [reflexivity |].
       split; [done | right; by left]. }
  destruct ext as [e|]; simpl.
  - destruct (String.eqb_spec (match file_extension rel_path with Some x => x | None => "" end) e)
      as [Heq|Hne]; simpl.
    + split; [done |]. split; [discriminate |]. intros _. split; [done |].
      intros e' [= <-]. destruct (file_extension rel_path); done.
    + rewrite add_issue_eq. split; [split; [discriminate | intros H; by apply snoc_neq in H] |].
      split; [| discriminate]. intros _. eexists. split; [reflexivity |].
      split; [done | right; right; by left].
  - split; [done |]. split; [discriminate |]. intros _. split; [done | discriminate].
Qed.

(** An archive context holding a [README] and a [doc/a.md]. *)
Definition ctx_readme : FSContext :=
  mkFSContext "pkg.zip" true (<[ "README" := [] ]> {[ "doc/a.md" := [] ]}).

Lemma validate_fs_file_spec_witness :
  fst (validate_fs_file (world_one_archive "pkg.zip") ctx_readme "README" [] [] (Some "")) = true /\
  FSContext_is_file (world_one_archive "pkg.zip") ctx_readme "README" = true /\
  file_extension "README" = None.
Proof.
  assert (H : fst (validate_fs_file (world_one_archive "pkg.zip") ctx_readme "README" [] [] (Some ""))
              = true) by (vm_compute; reflexivity).
  split; [exact H |]. split; [| reflexivity].
  exact (proj1 (proj2 (proj2 (validate_fs_file_spec (world_one_archive "pkg.zip") ctx_readme "README"
                                [] [] (Some ""))) H)).
Defined.

(** [validate_fs_directory] returns [true] exactly when it adds no issue,
    and otherwise appends one issue ([dir.not_found] or [dir.not_dir]) at
    the path extended by the relative path.  On an archive context it
    succeeds exactly when some entry key starts with the path and ["/"]:
    a plain file entry is not a directory. *)
Theorem validate_fs_directory_spec (w : World) (ctx : FSContext) (rel_path : string)
    (path : list string) (issues : Issues) :
  (fst (validate_fs_directory w ctx rel_path path issues) = true <->
   snd (validate_fs_directory w ctx rel_path path issues) = issues) /\
  (fst (validate_fs_directory w ctx rel_path path issues) = false ->
   exists i, snd (validate_fs_directory w ctx rel_path path issues) = issues ++ [i] /\
     issue_path i = render_path (path ++ [rel_path]) /\
     In (issue_code i) ["dir.not_found"; "dir.not_dir"]) /\
  (is_zip ctx = true ->
   (fst (validate_fs_directory w ctx rel_path path issues) = true <->
    exists k v, zip_entries ctx !! k = Some v /\ starts_with k (rel_path +:+ "/") = true)).
Proof.
  unfold validate_fs_directory.
  split; [| split].
  - destruct (FSContext_exists w ctx rel_path), (FSContext_is_dir w ctx rel_path); simpl;
      rewrite ?add_issue_eq; split; try done; intros H; by apply snoc_neq in H.
  - destruct (FSContext_exists w ctx rel_path), (FSContext_is_dir w ctx rel_path); simpl;
      try discriminate; intros _; rewrite add_issue_eq; eexists;
      (split; [reflexivity |]); (split; [done | simpl; auto]).
  - intros Hzip. rewrite <- existsb_keys_spec.
    unfold FSContext_exists, FSContext_is_dir. rewrite Hzip.
    destruct (existsb _ _); simpl; [rewrite orb_true_r |]; simpl; [done |].
    destruct (contains_key _ _); simpl; split; done.
Qed.

Lemma validate_fs_directory_spec_witness :
  is_zip ctx_readme = true /\
  (fst (validate_fs_directory (world_one_archive "pkg.zip") ctx_readme "README" [] []) = true <->
   exists k v, zip_entries ctx_readme !! k = Some v /\ starts_with k ("README" +:+ "/") = true).
Proof.
  assert (H : is_zip ctx_readme = true) by reflexivity.
  split; [exact H |].
  exact (proj2 (proj2 (validate_fs_directory_spec (world_one_archive "pkg.zip") ctx_readme "README"
                         [] [])) H).
Defined.

Example validate_fs_directory_file_entry :
  validate_fs_directory (world_one_archive "pkg.zip") ctx_readme "README" [] [] =
    (false, [mkIssue "README" "dir.not_dir" "Not a directory: README"]) /\
  validate_fs_directory (world_one_archive "pkg.zip") ctx_readme "doc" [] [] = (true, []).
Proof. split; vm_compute; reflexivity. Qed.

(** [validate_bundle] returns no context only after appending exactly one
    issue ([bundle.not_found], [bundle.type_mismatch], [bundle.invalid] or
    [bundle.open_error]) at the given path.  A returned context is the one
    [FSContext::new] built for an existing path of an accepted kind; with
    no name pattern and no content validator the issues are then
    unchanged. *)
Theorem validate_bundle_spec (w : World) (regex_new : RegexNew) (bundle_path : string)
    (path_list : list string) (issues : Issues) (accept_dir accept_zip : bool)
    (zip_ext name_pattern : option string) (content_validator : option FSValidator) :
  (fst (validate_bundle w regex_new bundle_path path_list issues accept_dir accept_zip zip_ext
          name_pattern content_validator) = None ->
   exists i,
     snd (validate_bundle w regex_new bundle_path path_list issues accept_dir accept_zip zip_ext
            name_pattern content_validator) = issues ++ [i] /\
     issue_path i = render_path path_list /\
     In (issue_code i)
       ["bundle.not_found"; "bundle.type_mismatch"; "bundle.invalid"; "bundle.open_error"]) /\
  (forall ctx,
   fst (validate_bundle w regex_new bundle_path path_list issues accept_dir accept_zip zip_ext
          name_pattern content_validator) = Some ctx ->
   w_exists w bundle_path = true /\ FSContext_new w bundle_path = Ok ctx /\
   (if w_is_dir w bundle_path then accept_dir else accept_zip) = true /\
   (name_pattern = None -> content_validator = None ->
    snd (validate_bundle w regex_new bundle_path path_list issues accept_dir accept_zip zip_ext
           name_pattern content_validator) = issues)).
Proof.
  unfold validate_bundle.
  destruct (w_exists w bundle_path) eqn:Hex; simpl.
  2: { split; [| discriminate]. intros _. rewrite add_issue_eq. eexists.
       split; [reflexivity |]. split; [done | simpl; auto]. }
  destruct (w_is_dir w bundle_path) eqn:Hdir; simpl.
  - destruct accept_dir; simpl.
    + destruct (FSContext_new w bundle_path) as [ctx|e] eqn:Hnew; simpl.
      * split; [discriminate |]. intros ctx' [= <-]. repeat split; try done.
        intros -> ->. done.
      * split; [| discriminate]. intros _. rewrite add_issue_eq. eexists.
        split; [reflexivity |]. split; [done | simpl; auto 10].
    + split; [| discriminate]. intros _. rewrite add_issue_eq. eexists.
      split; [reflexivity |]. split; [done | simpl; auto].
  - destruct (ends_with bundle_path ".zip"
              || match zip_ext with Some e => ends_with bundle_path ("." +:+ e) | None => false end);
      simpl.
    + destruct accept_zip; simpl.
      * destruct (FSContext_new w bundle_path) as [ctx|e] eqn:Hnew; simpl.
        -- split; [discriminate |]. intros ctx' [= <-]. repeat split; try done.
           intros -> ->. done.
        -- split; [| discriminate]. intros _. rewrite add_issue_eq. eexists.
           split; [reflexivity |]. split; [done | simpl; auto 10].
      * split; [| discriminate]. intros _. rewrite add_issue_eq. eexists.
        split; [reflexivity |]. split; [done | simpl; auto].
    + split; [| discriminate]. intros _. rewrite add_issue_eq. eexists.
      split; [reflexivity |]. split; [done | simpl; auto].
Qed.

Lemma validate_bundle_spec_witness :
  fst (validate_bundle (world_one_archive "pkg.zip") regex_only_empty "pkg.zip" [] [] true false
         None None None) = None /\
  exists i,
    snd (validate_bundle (world_one_archive "pkg.zip") regex_only_empty "pkg.zip" [] [] true false
           None None None) = [] ++ [i] /\
    issue_path i = "(root)" /\
    In (issue_code i) ["bundle.not_found"; "bundle.type_mismatch"; "bundle.invalid"; "bundle.open_error"].
Proof.
  assert (H : fst (validate_bundle (world_one_archive "pkg.zip") regex_only_empty "pkg.zip" [] [] true
                     false None None None) = None) by (vm_compute; reflexivity).
  split; [exact H |].
  exact (proj1 (validate_bundle_spec (world_one_archive "pkg.zip") regex_only_empty "pkg.zip" [] [] true
                  false None None None) H).
Defined.

(** Running [validate_path] with a bundle validator on a path that does
    not exist gives a failed result whose only issue is
    [bundle.not_found] at ["(root)"]: the content validator never runs. *)
Theorem validate_path_missing_bundle (w : World) (regex_new : RegexNew) (bundle_path : string)
    (Hmissing : w_exists w bundle_path = false) (accept_dir accept_zip : bool)
    (zip_ext name_pattern : option string) (content_validator : option FSValidator) :
  validate_path bundle_path
    (fun bp pl iss => validate_bundle w regex_new bp pl iss accept_dir accept_zip zip_ext
                        name_pattern content_validator) =
  mkResult false [mkIssue "(root)" "bundle.not_found" ("Path not found: " +:+ bundle_path)].
Proof. unfold validate_path, validate_bundle. by rewrite Hmissing. Qed.

Lemma validate_path_missing_bundle_witness :
  w_exists (world_one_archive "pkg.zip") "other.zip" = false /\
  ok (validate_path "other.zip"
        (fun bp pl iss => validate_bundle (world_one_archive "pkg.zip") regex_only_empty bp pl iss
                            true true None None None)) = false.
Proof.
  assert (H : w_exists (world_one_archive "pkg.zip") "other.zip" = false) by reflexivity.
  split; [exact H |].
  rewrite (validate_path_missing_bundle _ regex_only_empty "other.zip" H true true None None None).
  reflexivity.
Defined.
